(** * verify_users_page.py: the Playwright smoke-test script

    A shallow embedding of [jules-scratch/verification/verify_users_page.py].
    The script is a straight line of Playwright calls inside a [with] block
    and a [try]/[except Exception]/[finally] statement.  Every Playwright
    call reaches outside the program (browser, server, file system), so a
    run is described relative to a [world] that says, for each call, whether
    it returns or which exception it raises.  The program state is what an
    observer sees afterwards: the calls made in order, the lines printed, and
    the file system. *)

From Stdlib Require Import ZArith.
From Stdlib.Strings Require Import Byte.
From stdpp Require Import base option list strings gmap.

Local Open Scope string_scope.
Local Open Scope list_scope.

(** ** Python exceptions *)

(** The argument of [SystemExit]: nothing, an integer, or any other object. *)
Inductive exit_code :=
  | CodeNone
  | CodeInt (n : Z)
  | CodeOther.

(** The classes that matter to [except Exception]: [Exception] with all its
    subclasses (playwright's [Error] and [TimeoutError], [AssertionError],
    ...), and the classes that derive from [BaseException] only. *)
Inductive exc_class :=
  | ExceptionClass (name : string)
  | KeyboardInterrupt
  | SystemExit (code : exit_code)
  | GeneratorExit
  | OtherBaseException (name : string).

(** An exception object: its class and what [str(e)] gives. *)
Record exn := Exn { exn_class : exc_class; exn_str : string }.

(** [isinstance(e, Exception)] *)
Definition isinstance_Exception (e : exn) : bool :=
  match exn_class e with
  | ExceptionClass _ => true
  | _ => false
  end.

(** ** Calls into Playwright *)

(** One constructor per statement of the script that calls into Playwright,
    with the literal arguments of the call.  A locator and the action on it
    ([page.get_by_label(l).fill(v)], [expect(page.locator(s)).to_have_text(t)])
    are one statement of the source and one call here. *)
Inductive action :=
  | SyncPlaywrightEnter                       (* sync_playwright().__enter__() *)
  | Launch (headless : bool)                  (* p.chromium.launch(headless=..) *)
  | NewPage                                   (* browser.new_page() *)
  | Goto (url : string)                       (* page.goto(url) *)
  | Fill (label value : string)               (* page.get_by_label(label).fill(value) *)
  | Click (role name : string)                (* page.get_by_role(role, name=name).click() *)
  | ExpectText (selector text : string)       (* expect(page.locator(selector)).to_have_text(text) *)
  | Screenshot (path : string)                (* page.screenshot(path=path) *)
  | Close                                     (* browser.close() *)
  | SyncPlaywrightExit.                       (* the context manager's __exit__ *)

#[global] Instance action_eq_dec : EqDecision action.
Proof. solve_decision. Defined.

(** What a call does: return, or raise. *)
Inductive outcome :=
  | Returns
  | Raises (e : exn).

(** The outside of the program during one run: the outcome of every
    Playwright call, and the image the browser renders for a screenshot. *)
Record world := World {
  respond : action -> outcome;
  capture : list byte
}.

(** ** Program state *)

Inductive image_type := Png | Jpeg.

Record file := File { ftype : image_type; fdata : list byte }.

Record state := State {
  trace : list action;          (* Playwright calls made so far, oldest first *)
  stdout : list string;         (* lines printed so far, oldest first *)
  fs : gmap string file         (* files by path *)
}.

Definition initial (files : gmap string file) : state :=
  {| trace := []; stdout := []; fs := files |}.

(** ** Statements: state passing with exceptions *)

Inductive result (A : Type) :=
  | Normal (a : A)
  | Raise (e : exn).
Arguments Normal {A} a.
Arguments Raise {A} e.

Definition Py (A : Type) : Type := state -> state * result A.

Definition ret {A} (a : A) : Py A := fun s => (s, Normal a).

Definition bind {A B} (m : Py A) (k : A -> Py B) : Py B :=
  fun s =>
    match m s with
    | (s1, Normal a) => k a s1
    | (s1, Raise e) => (s1, Raise e)
    end.

Notation "x <- m ;; k" := (bind m (fun x => k))
  (at level 100, m at next level, right associativity).
Notation "m ;;; k" := (bind m (fun _ => k))
  (at level 100, right associativity).

(** [try: body  except Exception as e: handler(e)  finally: final]

    The handler runs only for an instance of [Exception]; the [finally]
    suite runs on every path; an exception raised by the [finally] suite
    replaces whatever was pending. *)
Definition try_except_finally
    (body : Py unit) (handler : exn -> Py unit) (final : Py unit) : Py unit :=
  fun s =>
    let '(s1, r1) := body s in
    let '(s2, r2) :=
      match r1 with
      | Normal _ => (s1, r1)
      | Raise e => if isinstance_Exception e then handler e s1 else (s1, Raise e)
      end in
    let '(s3, r3) := final s2 in
    match r3 with
    | Normal _ => (s3, r2)
    | Raise e3 => (s3, Raise e3)
    end.

(** [with mgr as x: body]

    [__exit__] is called with the pending exception, if any; the exception
    is dropped when [__exit__] returns a true value and re-raised otherwise;
    an exception raised by [__exit__] itself replaces it. *)
Definition with_ {A} (enter : Py A) (exit : option exn -> Py bool)
    (body : A -> Py unit) : Py unit :=
  fun s =>
    match enter s with
    | (s1, Raise e) => (s1, Raise e)
    | (s1, Normal x) =>
        match body x s1 with
        | (s2, Normal _) =>
            match exit None s2 with
            | (s3, Normal _) => (s3, Normal tt)
            | (s3, Raise e') => (s3, Raise e')
            end
        | (s2, Raise e) =>
            match exit (Some e) s2 with
            | (s3, Normal true) => (s3, Normal tt)
            | (s3, Normal false) => (s3, Raise e)
            | (s3, Raise e') => (s3, Raise e')
            end
        end
    end.

(** [print(line)] *)
Definition print (line : string) : Py unit :=
  fun s => ({| trace := trace s; stdout := stdout s ++ [line]; fs := fs s |},
            Normal tt).

(** The handles the script binds to [p], [browser] and [page]. *)
Inductive playwright := ThePlaywright.
Inductive browser := TheBrowser.
Inductive page := ThePage.

Definition screenshot_path : string :=
  "jules-scratch/verification/verification.png".

Section Script.

Variable w : world.

(** A Playwright call: it is recorded, then returns or raises as the world
    says. *)
Definition call (a : action) : Py unit :=
  fun s =>
    ({| trace := trace s ++ [a]; stdout := stdout s; fs := fs s |},
     match respond w a with
     | Returns => Normal tt
     | Raises e => Raise e
     end).

Definition sync_playwright_enter : Py playwright :=
  call SyncPlaywrightEnter;;; ret ThePlaywright.

(** Playwright's context manager stops the driver and returns [None]: it
    never drops a pending exception. *)
Definition sync_playwright_exit (pending : option exn) : Py bool :=
  call SyncPlaywrightExit;;; ret false.

Definition chromium_launch (p : playwright) (headless : bool) : Py browser :=
  call (Launch headless);;; ret TheBrowser.

Definition new_page (b : browser) : Py page :=
  call NewPage;;; ret ThePage.

Definition goto (pg : page) (url : string) : Py unit := call (Goto url).

Definition fill (pg : page) (label value : string) : Py unit :=
  call (Fill label value).

Definition click (pg : page) (role name : string) : Py unit :=
  call (Click role name).

Definition expect_to_have_text (pg : page) (selector text : string) : Py unit :=
  call (ExpectText selector text).

(** Modelled from the spec: [page.screenshot] belongs to Playwright, not to
    this repository.  A call that returns has stored the rendered image at
    [path], replacing any file already there ("overwrites any existing file
    there"); without a [type] argument the image is a PNG ("a PNG image
    file").  A call that raises leaves the file system as it was. *)
Definition screenshot (pg : page) (path : string) : Py unit :=
  fun s =>
    match call (Screenshot path) s with
    | (s1, Normal _) =>
        ({| trace := trace s1; stdout := stdout s1;
            fs := <[path := {| ftype := Png; fdata := capture w |}]> (fs s1) |},
         Normal tt)
    | (s1, Raise e) => (s1, Raise e)
    end.

Definition close (b : browser) : Py unit := call Close.

(** The body of the [try] statement, lines 9 to 25. *)
Definition flow (pg : page) : Py unit :=
  goto pg "http://localhost:1717";;;
  fill pg "Username" "admin";;;
  fill pg "Password" "admin";;;
  click pg "button" "SIGN IN";;;
  expect_to_have_text pg "div.mb-8 > h2.title-flat" "Dashboard";;;
  click pg "link" "User Management";;;
  expect_to_have_text pg "div.mb-8 > h2.title-flat" "Users";;;
  screenshot pg screenshot_path.

(** [except Exception as e: print(f"An error occurred: {e}")] *)
Definition handler (e : exn) : Py unit :=
  print ("An error occurred: " +:+ exn_str e).

Definition run_verification : Py unit :=
  with_ sync_playwright_enter sync_playwright_exit (fun p =>
    b <- chromium_launch p true;;
    pg <- new_page b;;
    try_except_finally (flow pg) handler (close b)).

End Script.

(** ** The process *)

(** The exit status the interpreter gives the parent process (POSIX, 64-bit
    [long]) when the exception [e] leaves the main module. *)
Definition status_of_exn (e : exn) : Z :=
  match exn_class e with
  | SystemExit CodeNone => 0
  | SystemExit (CodeInt n) =>
      if ((- 2 ^ 63 <=? n) && (n <? 2 ^ 63))%Z then (n mod 256)%Z else 255%Z
  | SystemExit CodeOther => 1
  | KeyboardInterrupt => 130
  | _ => 1
  end.

(** [if __name__ == "__main__": run_verification()] *)
Definition exit_status (r : result unit) : Z :=
  match r with
  | Normal _ => 0
  | Raise e => status_of_exn e
  end.

(** One run of the script as a process started on the files [files]. *)
Definition run (w : world) (files : gmap string file) : state * result unit :=
  run_verification w (initial files).

Definition final_state (w : world) (files : gmap string file) : state :=
  fst (run w files).

Definition propagated (w : world) (files : gmap string file) : result unit :=
  snd (run w files).

Definition process_exit (w : world) (files : gmap string file) : Z :=
  exit_status (propagated w files).

(** ** Vocabulary for the statements below *)

(** The eight Playwright statements of the [try] body, named. *)
Definition goto_login : action := Goto "http://localhost:1717".
Definition fill_username : action := Fill "Username" "admin".
Definition fill_password : action := Fill "Password" "admin".
Definition click_sign_in : action := Click "button" "SIGN IN".
Definition expect_dashboard : action :=
  ExpectText "div.mb-8 > h2.title-flat" "Dashboard".
Definition click_user_management : action := Click "link" "User Management".
Definition expect_users : action :=
  ExpectText "div.mb-8 > h2.title-flat" "Users".
Definition take_screenshot : action := Screenshot screenshot_path.

Definition flow_actions : list action :=
  [goto_login; fill_username; fill_password; click_sign_in; expect_dashboard;
   click_user_management; expect_users; take_screenshot].

Definition setup_actions : list action :=
  [SyncPlaywrightEnter; Launch true; NewPage].

Definition cleanup_actions : list action := [Close; SyncPlaywrightExit].

Definition returns (w : world) (a : action) : Prop := respond w a = Returns.

(** The context is entered, the browser launched and the page opened. *)
Definition setup_ok (w : world) : Prop := Forall (returns w) setup_actions.

(** Every statement of the [try] body returns. *)
Definition flow_succeeds (w : world) : Prop := Forall (returns w) flow_actions.

(** The [try] body raises [e]: some statement of it raises [e] after all the
    statements before it have returned. *)
Definition flow_raises (w : world) (e : exn) : Prop :=
  exists pre a post,
    flow_actions = pre ++ a :: post /\
    Forall (returns w) pre /\
    respond w a = Raises e.

(** [browser.close()] and the context manager's [__exit__] return. *)
Definition cleanup_ok (w : world) : Prop := Forall (returns w) cleanup_actions.

(** The calls of the list [l] made in order until one raises: the calls made
    and the exception, if any. *)
Fixpoint attempt (w : world) (l : list action) : list action * option exn :=
  match l with
  | [] => ([], None)
  | a :: l' =>
      match respond w a with
      | Returns => let '(t, r) := attempt w l' in (a :: t, r)
      | Raises e => ([a], Some e)
      end
  end.

(** What leaves the [with] block when [pending] leaves the [try] body and
    its handler: [browser.close()] and then [__exit__] run, and an exception
    of either replaces [pending]. *)
Definition after_cleanup (w : world) (pending : result unit) : result unit :=
  let closed :=
    match respond w Close with
    | Returns => pending
    | Raises e => Raise e
    end in
  match respond w SyncPlaywrightExit with
  | Returns => closed
  | Raises e => Raise e
  end.

(** What leaves the [with] block when [pending] is raised before the [try]
    statement is reached: only [__exit__] runs. *)
Definition after_exit (w : world) (pending : exn) : result unit :=
  match respond w SyncPlaywrightExit with
  | Returns => Raise pending
  | Raises e => Raise e
  end.

(** The file a returning [page.screenshot] stores. *)
Definition screenshot_file (w : world) : file :=
  {| ftype := Png; fdata := capture w |}.

(** The line the handler prints for [e]. *)
Definition error_line (e : exn) : string := "An error occurred: " +:+ exn_str e.

(** The kinds of action the specification's overview counts. *)
Inductive step_kind :=
  | KLaunch | KOpenPage | KNavigate | KFill | KClickButton | KAssertText
  | KClickLink | KScreenshot | KCloseBrowser.

(** The kind of a call; entering and leaving the Playwright context are not
    browser actions and have none. *)
Definition kind_of (a : action) : option step_kind :=
  match a with
  | SyncPlaywrightEnter => None
  | Launch _ => Some KLaunch
  | NewPage => Some KOpenPage
  | Goto _ => Some KNavigate
  | Fill _ _ => Some KFill
  | Click role _ => Some (if String.eqb role "link" then KClickLink else KClickButton)
  | ExpectText _ _ => Some KAssertText
  | Screenshot _ => Some KScreenshot
  | Close => Some KCloseBrowser
  | SyncPlaywrightExit => None
  end.

Definition kinds (t : list action) : list step_kind := omap kind_of t.

(** The order as the specification's overview words it: launch, open a page,
    navigate, fill two fields, click a button, assert on visible text twice,
    click a navigation link, save a screenshot, close the browser. *)
Definition order_in_overview : list step_kind :=
  [KLaunch; KOpenPage; KNavigate; KFill; KFill; KClickButton;
   KAssertText; KAssertText; KClickLink; KScreenshot; KCloseBrowser].

(** The order of the statements in the source. *)
Definition order_in_source : list step_kind :=
  [KLaunch; KOpenPage; KNavigate; KFill; KFill; KClickButton;
   KAssertText; KClickLink; KAssertText; KScreenshot; KCloseBrowser].



(** ** Sample worlds *)

(** The first bytes of a PNG stream. *)
Definition png_signature : list byte := [x89; x50; x4e; x47; x0d; x0a; x1a; x0a].

(** Server up, credentials valid: every call returns. *)
Definition all_ok : world :=
  {| respond := fun _ => Returns; capture := png_signature |}.

(** Every call returns except [a], which raises [e]. *)
Definition failing_at (a : action) (e : exn) : world :=
  {| respond := fun b => if decide (b = a) then Raises e else Returns;
     capture := png_signature |}.

Definition dashboard_timeout : exn :=
  {| exn_class := ExceptionClass "AssertionError";
     exn_str := "Locator expected to have text 'Dashboard'" |}.

Definition browser_not_installed : exn :=
  {| exn_class := ExceptionClass "Error";
     exn_str := "Executable doesn't exist" |}.

Definition page_crashed : exn :=
  {| exn_class := ExceptionClass "Error"; exn_str := "Target closed" |}.

Definition ctrl_c : exn := {| exn_class := KeyboardInterrupt; exn_str := "" |}.

(** [sys.exit()] called, for instance, by a signal handler. *)
Definition sys_exit : exn := {| exn_class := SystemExit CodeNone; exn_str := "" |}.

(** A list of calls is a subsequence of another, by walking both. *)
Ltac sublist_by_skipping :=
  repeat first [apply sublist_nil_l | apply sublist_skip | apply sublist_cons].

(** Case analysis on the outcome of every call the goal mentions. *)
Ltac by_cases_on_world w :=
  repeat match goal with
    | |- context [respond w ?a] => destruct (respond w a)
    end.

(** ** How a list of calls runs *)

Section Attempt.

Variable w : world.

Lemma attempt_all_return (l : list action) :
  Forall (returns w) l -> attempt w l = (l, None).
Proof.
  induction 1 as [|a l Ha _ IH]; simpl; [reflexivity|].
  unfold returns in Ha. rewrite Ha, IH. reflexivity.
Qed.

Lemma attempt_first_raise (pre post : list action) (a : action) (e : exn) :
  Forall (returns w) pre -> respond w a = Raises e ->
  attempt w (pre ++ a :: post) = (pre ++ [a], Some e).
Proof.
  intros Hpre Ha. induction Hpre as [|b pre Hb _ IH]; simpl.
  - rewrite Ha. reflexivity.
  - unfold returns in Hb. rewrite Hb, IH. reflexivity.
Qed.

Lemma attempt_none_inv (l t : list action) :
  attempt w l = (t, None) -> t = l /\ Forall (returns w) l.
Proof.
  revert t. induction l as [|a l IH]; simpl; intros t H.
  - inversion H. split; [reflexivity | constructor].
  - destruct (respond w a) eqn:Ha; [|discriminate].
    destruct (attempt w l) as [t' r] eqn:Hl. inversion H; subst.
    destruct (IH t' eq_refl) as [-> Hall].
    split; [reflexivity | constructor; assumption].
Qed.

Lemma attempt_some_inv (l t : list action) (e : exn) :
  attempt w l = (t, Some e) ->
  exists pre a post,
    l = pre ++ a :: post /\ Forall (returns w) pre /\
    respond w a = Raises e /\ t = pre ++ [a].
Proof.
  revert t. induction l as [|a l IH]; simpl; intros t H; [discriminate|].
  destruct (respond w a) as [|e'] eqn:Ha.
  - destruct (attempt w l) as [t' r] eqn:Hl. inversion H; subst.
    destruct (IH t' eq_refl) as (pre & b & post & -> & Hpre & Hb & ->).
    exists (a :: pre), b, post. repeat split; try assumption.
    constructor; assumption.
  - inversion H; subst. exists [], a, l. repeat split; try assumption.
    constructor.
Qed.

Lemma flow_succeeds_attempt :
  flow_succeeds w -> attempt w flow_actions = (flow_actions, None).
Proof. apply attempt_all_return. Qed.

Lemma flow_raises_attempt (e : exn) :
  flow_raises w e -> exists t, attempt w flow_actions = (t, Some e).
Proof.
  intros (pre & a & post & -> & Hpre & Ha).
  exists (pre ++ [a]). apply attempt_first_raise; assumption.
Qed.

(** The exception a [try] body raises is determined by the world. *)
Lemma flow_raises_functional (e1 e2 : exn) :
  flow_raises w e1 -> flow_raises w e2 -> e1 = e2.
Proof.
  intros H1 H2.
  destruct (flow_raises_attempt _ H1) as [t1 E1].
  destruct (flow_raises_attempt _ H2) as [t2 E2].
  congruence.
Qed.

Lemma flow_succeeds_not_raises (e : exn) :
  flow_succeeds w -> flow_raises w e -> False.
Proof.
  intros H1 H2. apply flow_succeeds_attempt in H1.
  destruct (flow_raises_attempt _ H2) as [t E]. congruence.
Qed.

End Attempt.

(** ** The [try] body and the whole script, run in any world *)

Lemma flow_run (w : world) (pg : page) (s : state) :
  flow w pg s =
  match attempt w flow_actions with
  | (t, None) =>
      ({| trace := trace s ++ t; stdout := stdout s;
          fs := <[screenshot_path := screenshot_file w]> (fs s) |}, Normal tt)
  | (t, Some e) =>
      ({| trace := trace s ++ t; stdout := stdout s; fs := fs s |}, Raise e)
  end.
Proof.
  unfold flow, flow_actions, goto, fill, click, expect_to_have_text,
    screenshot, bind, call, screenshot_file; simpl.
  unfold goto_login, fill_username, fill_password, click_sign_in,
    expect_dashboard, click_user_management, expect_users, take_screenshot.
  by_cases_on_world w; simpl; rewrite <- ?app_assoc; reflexivity.
Qed.

Lemma setup_ok_inv (w : world) :
  setup_ok w ->
  respond w SyncPlaywrightEnter = Returns /\
  respond w (Launch true) = Returns /\
  respond w NewPage = Returns.
Proof.
  unfold setup_ok, setup_actions, returns. rewrite !Forall_cons. tauto.
Qed.

Lemma cleanup_ok_inv (w : world) :
  cleanup_ok w ->
  respond w Close = Returns /\ respond w SyncPlaywrightExit = Returns.
Proof.
  unfold cleanup_ok, cleanup_actions, returns. rewrite !Forall_cons. tauto.
Qed.

Lemma after_cleanup_ok (w : world) (r : result unit) :
  cleanup_ok w -> after_cleanup w r = r.
Proof.
  intros [H1 H2]%cleanup_ok_inv. unfold after_cleanup. rewrite H1, H2.
  reflexivity.
Qed.

(** The script once the [try] statement is reached: the whole run in terms
    of what the [try] body does. *)
Lemma run_entered (w : world) (files : gmap string file) :
  setup_ok w ->
  run w files =
  match attempt w flow_actions with
  | (t, None) =>
      ({| trace := setup_actions ++ t ++ cleanup_actions; stdout := [];
          fs := <[screenshot_path := screenshot_file w]> files |},
       after_cleanup w (Normal tt))
  | (t, Some e) =>
      if isinstance_Exception e then
        ({| trace := setup_actions ++ t ++ cleanup_actions;
            stdout := [error_line e]; fs := files |},
         after_cleanup w (Normal tt))
      else
        ({| trace := setup_actions ++ t ++ cleanup_actions;
            stdout := []; fs := files |},
         after_cleanup w (Raise e))
  end.
Proof.
  intros (H1 & H2 & H3)%setup_ok_inv.
  unfold run, run_verification, with_, sync_playwright_enter,
    sync_playwright_exit, chromium_launch, new_page, try_except_finally,
    close, handler, print, after_cleanup, error_line.
  unfold bind at 1. unfold call at 1. rewrite H1. unfold ret at 1.
  unfold bind at 1. unfold bind at 1. unfold call at 1. rewrite H2.
  unfold ret at 1. unfold bind at 1. unfold bind at 1. unfold call at 1.
  rewrite H3. unfold ret at 1. rewrite flow_run.
  destruct (attempt w flow_actions) as [t [e|]]; simpl.
  - destruct (isinstance_Exception e); unfold bind, call, ret; simpl;
      destruct (respond w Close), (respond w SyncPlaywrightExit); simpl;
      rewrite <- ?app_assoc; reflexivity.
  - unfold bind, call, ret; simpl;
      destruct (respond w Close), (respond w SyncPlaywrightExit); simpl;
      rewrite <- ?app_assoc; reflexivity.
Qed.

(** The script when the browser cannot be launched or the page cannot be
    opened: the [try] statement is not reached. *)
Lemma run_launch_raises (w : world) (files : gmap string file) (e : exn) :
  respond w SyncPlaywrightEnter = Returns ->
  respond w (Launch true) = Raises e ->
  run w files =
  ({| trace := [SyncPlaywrightEnter; Launch true; SyncPlaywrightExit];
      stdout := []; fs := files |}, after_exit w e).
Proof.
  intros H1 H2.
  unfold run, run_verification, with_, sync_playwright_enter,
    sync_playwright_exit, chromium_launch, after_exit, bind, call, ret; simpl.
  rewrite H1, H2. destruct (respond w SyncPlaywrightExit); reflexivity.
Qed.

Lemma run_new_page_raises (w : world) (files : gmap string file) (e : exn) :
  respond w SyncPlaywrightEnter = Returns ->
  respond w (Launch true) = Returns ->
  respond w NewPage = Raises e ->
  run w files =
  ({| trace := [SyncPlaywrightEnter; Launch true; NewPage; SyncPlaywrightExit];
      stdout := []; fs := files |}, after_exit w e).
Proof.
  intros H1 H2 H3.
  unfold run, run_verification, with_, sync_playwright_enter,
    sync_playwright_exit, chromium_launch, new_page, after_exit, bind, call,
    ret; simpl.
  rewrite H1, H2, H3. destruct (respond w SyncPlaywrightExit); reflexivity.
Qed.

Lemma run_enter_raises (w : world) (files : gmap string file) (e : exn) :
  respond w SyncPlaywrightEnter = Raises e ->
  run w files =
  ({| trace := [SyncPlaywrightEnter]; stdout := []; fs := files |}, Raise e).
Proof.
  intros H1.
  unfold run, run_verification, with_, sync_playwright_enter, bind, call, ret;
    simpl.
  rewrite H1. reflexivity.
Qed.

Lemma run_flow_succeeds (w : world) (files : gmap string file) :
  setup_ok w -> flow_succeeds w ->
  run w files =
  ({| trace := setup_actions ++ flow_actions ++ cleanup_actions; stdout := [];
      fs := <[screenshot_path := screenshot_file w]> files |},
   after_cleanup w (Normal tt)).
Proof.
  intros Hs Hf. rewrite (run_entered w files Hs), (flow_succeeds_attempt w Hf).
  reflexivity.
Qed.

Lemma run_flow_caught (w : world) (files : gmap string file) (e : exn) :
  setup_ok w -> flow_raises w e -> isinstance_Exception e = true ->
  exists t,
    attempt w flow_actions = (t, Some e) /\
    run w files =
    ({| trace := setup_actions ++ t ++ cleanup_actions;
        stdout := [error_line e]; fs := files |},
     after_cleanup w (Normal tt)).
Proof.
  intros Hs Hf He. destruct (flow_raises_attempt w e Hf) as [t Ht].
  exists t. split; [assumption|].
  rewrite (run_entered w files Hs), Ht, He. reflexivity.
Qed.

Lemma run_flow_uncaught (w : world) (files : gmap string file) (e : exn) :
  setup_ok w -> flow_raises w e -> isinstance_Exception e = false ->
  exists t,
    attempt w flow_actions = (t, Some e) /\
    run w files =
    ({| trace := setup_actions ++ t ++ cleanup_actions;
        stdout := []; fs := files |},
     after_cleanup w (Raise e)).
Proof.
  intros Hs Hf He. destruct (flow_raises_attempt w e Hf) as [t Ht].
  exists t. split; [assumption|].
  rewrite (run_entered w files Hs), Ht, He. reflexivity.
Qed.

(** A call is attempted only after every call before it has returned. *)
Lemma attempt_reached (w : world) (l t : list action) (r : option exn)
    (pre post : list action) (a : action) :
  attempt w l = (t, r) -> l = pre ++ a :: post -> a ∉ pre -> a ∈ t ->
  Forall (returns w) pre.
Proof.
  revert l t. induction pre as [|b pre IH]; intros l t Hl -> Hnot Hin.
  - constructor.
  - simpl in Hl. apply not_elem_of_cons in Hnot as [Hab Hnot].
    destruct (respond w b) eqn:Hb.
    + destruct (attempt w (pre ++ a :: post)) as [t' r'] eqn:Ht'.
      inversion Hl; subst. apply elem_of_cons in Hin as [Hin|Hin]; [congruence|].
      constructor; [exact Hb|]. eapply IH; eauto.
    + inversion Hl; subst. apply elem_of_cons in Hin as [Hin|Hin]; [congruence|].
      apply elem_of_nil in Hin. contradiction.
Qed.

(** ** The claims *)

(** C1, as the overview words it: the two text assertions would both come
    before the click on the navigation link.  In a run where every call
    returns, the kinds of the actions performed are not in that order. *)
Lemma C1_overview_order_refuted :
  kinds (trace (final_state all_ok ∅)) <> order_in_overview.
Proof. vm_compute. discriminate. Qed.

(** C1, amended: when every call returns, the script performs exactly these
    calls in this order: enter the Playwright context, launch a headless
    browser, open a page, navigate to the login URL, fill the user name,
    fill the password, click the sign-in button, assert the Dashboard title,
    click the User Management link, assert the Users title, save the
    screenshot, close the browser, leave the context.  The click on the link
    stands between the two assertions. *)
Theorem C1_actions_in_source_order (w : world) (files : gmap string file) :
  setup_ok w -> flow_succeeds w ->
  trace (final_state w files) =
    [SyncPlaywrightEnter; Launch true; NewPage;
     Goto "http://localhost:1717";
     Fill "Username" "admin"; Fill "Password" "admin";
     Click "button" "SIGN IN";
     ExpectText "div.mb-8 > h2.title-flat" "Dashboard";
     Click "link" "User Management";
     ExpectText "div.mb-8 > h2.title-flat" "Users";
     Screenshot "jules-scratch/verification/verification.png";
     Close; SyncPlaywrightExit] /\
  kinds (trace (final_state w files)) = order_in_source.
Proof.
  intros Hs Hf. unfold final_state. rewrite run_flow_succeeds by assumption.
  split; reflexivity.
Qed.

Lemma C1_actions_in_source_order_witness :
  setup_ok all_ok /\ flow_succeeds all_ok /\
  kinds (trace (final_state all_ok ∅)) = order_in_source.
Proof.
  assert (Hs : setup_ok all_ok) by (repeat constructor).
  assert (Hf : flow_succeeds all_ok) by (repeat constructor).
  split; [exact Hs|]. split; [exact Hf|].
  exact (proj2 (C1_actions_in_source_order all_ok ∅ Hs Hf)).
Defined.

(** C2, as stated: every exception raised during the flow would be caught,
    printed and swallowed.  A [KeyboardInterrupt] raised while the Dashboard
    assertion waits is not an [Exception]: the handler does not run, nothing
    is printed, and the interrupt leaves the script. *)
Lemma C2_catch_all_refuted :
  let w := failing_at expect_dashboard ctrl_c in
  flow_raises w ctrl_c /\
  stdout (final_state w ∅) = [] /\
  propagated w ∅ = Raise ctrl_c.
Proof.
  intros w. split.
  - exists [goto_login; fill_username; fill_password; click_sign_in],
           expect_dashboard,
           [click_user_management; expect_users; take_screenshot].
    split; [reflexivity|]. split; [repeat constructor | reflexivity].
  - split; reflexivity.
Qed.

(** C2, amended: every [Exception] raised by a statement of the [try] body is caught
    by the one handler around the body: the line "An error occurred: "
    followed by its message is the only line printed, the exception does not
    leave the [try] statement (what leaves the script is decided by the
    cleanup alone, and nothing leaves when the cleanup returns), and the
    calls made end with [browser.close()] and the exit of the context. *)
Theorem C2_exception_caught_printed_swallowed
    (w : world) (files : gmap string file) (e : exn) :
  setup_ok w -> flow_raises w e -> isinstance_Exception e = true ->
  stdout (final_state w files) = ["An error occurred: " +:+ exn_str e] /\
  propagated w files = after_cleanup w (Normal tt) /\
  (cleanup_ok w -> propagated w files = Normal tt) /\
  exists t, trace (final_state w files) =
            setup_actions ++ t ++ [Close; SyncPlaywrightExit].
Proof.
  intros Hs Hf He.
  destruct (run_flow_caught w files e Hs Hf He) as (t & _ & Hrun).
  unfold final_state, propagated. rewrite Hrun. simpl.
  split; [reflexivity|]. split; [reflexivity|]. split.
  - intros Hc. apply after_cleanup_ok. exact Hc.
  - exists t. reflexivity.
Qed.

Lemma C2_exception_caught_printed_swallowed_witness :
  let w := failing_at click_user_management page_crashed in
  setup_ok w /\ flow_raises w page_crashed /\
  isinstance_Exception page_crashed = true /\
  stdout (final_state w ∅) = ["An error occurred: Target closed"] /\
  propagated w ∅ = Normal tt.
Proof.
  intros w.
  assert (Hs : setup_ok w) by (repeat constructor).
  assert (Hf : flow_raises w page_crashed).
  { exists [goto_login; fill_username; fill_password; click_sign_in;
            expect_dashboard], click_user_management,
           [expect_users; take_screenshot].
    split; [reflexivity|]. split; [repeat constructor | reflexivity]. }
  assert (Hc : cleanup_ok w) by (repeat constructor).
  destruct (C2_exception_caught_printed_swallowed w ∅ page_crashed Hs Hf eq_refl)
    as (Hout & _ & Hprop & _).
  split; [exact Hs|]. split; [exact Hf|]. split; [reflexivity|].
  split; [exact Hout | exact (Hprop Hc)].
Defined.

Lemma attempt_flow_raises (w : world) (t : list action) (e : exn) :
  attempt w flow_actions = (t, Some e) -> flow_raises w e.
Proof.
  intros (pre & a & post & Hl & Hpre & Ha & _)%attempt_some_inv.
  exists pre, a, post. auto.
Qed.

(** C3, as stated: every execution would end with exit status 0.  When the
    browser cannot be launched the exception is raised before the [try]
    statement, leaves the script, and the interpreter exits with status 1. *)
Lemma C3_exit_status_refuted :
  process_exit (failing_at (Launch true) browser_not_installed) ∅ <> 0%Z.
Proof. vm_compute. discriminate. Qed.

(** C3, amended: in every execution in which the context is entered, the
    browser launched and the page opened, in which whatever a statement of
    the [try] body raises is an [Exception], and in which [browser.close()]
    and the exit of the context return, the process ends with exit status 0,
    whether the flow failed or succeeded. *)
Theorem C3_exit_zero_once_try_entered (w : world) (files : gmap string file) :
  setup_ok w -> cleanup_ok w ->
  (forall e, flow_raises w e -> isinstance_Exception e = true) ->
  process_exit w files = 0%Z.
Proof.
  intros Hs Hc Hexc. unfold process_exit, propagated.
  rewrite (run_entered w files Hs).
  destruct (attempt w flow_actions) as [t [e|]] eqn:Ht.
  - rewrite (Hexc e (attempt_flow_raises w t e Ht)). simpl.
    rewrite after_cleanup_ok by assumption. reflexivity.
  - simpl. rewrite after_cleanup_ok by assumption. reflexivity.
Qed.

Lemma C3_exit_zero_once_try_entered_witness :
  let w := failing_at expect_dashboard dashboard_timeout in
  setup_ok w /\ cleanup_ok w /\
  (forall e, flow_raises w e -> isinstance_Exception e = true) /\
  process_exit w ∅ = 0%Z.
Proof.
  intros w.
  assert (Hs : setup_ok w) by (repeat constructor).
  assert (Hc : cleanup_ok w) by (repeat constructor).
  assert (Hexc : forall e, flow_raises w e -> isinstance_Exception e = true).
  { intros e (t & Ht)%flow_raises_attempt. vm_compute in Ht.
    inversion Ht. reflexivity. }
  split; [exact Hs|]. split; [exact Hc|]. split; [exact Hexc|].
  exact (C3_exit_zero_once_try_entered w ∅ Hs Hc Hexc).
Defined.


(** When [browser.new_page()] raises, the browser has been launched, the
    [try] statement is never reached and [browser.close()] is not called:
    on that path the browser is shut down by the exit of the Playwright
    context alone. *)
Lemma close_skipped_when_new_page_raises :
  let w := failing_at NewPage page_crashed in
  respond w (Launch true) = Returns /\
  Launch true ∈ trace (final_state w ∅) /\
  (Close ∉ trace (final_state w ∅)) /\
  SyncPlaywrightExit ∈ trace (final_state w ∅).
Proof.
  intros w. split; [reflexivity|]. split; [|split].
  - vm_compute. apply list_elem_of_further, list_elem_of_here.
  - vm_compute. intros H.
    repeat (apply elem_of_cons in H as [H|H]; [discriminate|]).
    apply elem_of_nil in H. exact H.
  - vm_compute. do 3 apply list_elem_of_further. apply list_elem_of_here.
Qed.

(** On every exit path on which the page was opened, so that the [try]
    statement was entered, [browser.close()] is called whether the flow
    succeeded, raised an [Exception] or raised anything else, and the only
    call after it is the exit of the Playwright context. *)
Lemma close_called_once_try_entered (w : world) (files : gmap string file) :
  setup_ok w ->
  exists t, trace (final_state w files) =
            [SyncPlaywrightEnter; Launch true; NewPage] ++ t ++
            [Close; SyncPlaywrightExit].
Proof.
  intros Hs. unfold final_state. rewrite (run_entered w files Hs).
  destruct (attempt w flow_actions) as [t [e|]].
  - destruct (isinstance_Exception e); exists t; reflexivity.
  - exists t. reflexivity.
Qed.




(** C5: when the server behaves and the credentials are valid, so that
    every call of the script returns, the file system holds a PNG file with
    the captured image at the fixed path
    jules-scratch/verification/verification.png after the run. *)
Theorem C5_screenshot_written_on_success (w : world) (files : gmap string file) :
  setup_ok w -> flow_succeeds w ->
  fs (final_state w files) !! "jules-scratch/verification/verification.png" =
    Some {| ftype := Png; fdata := capture w |} /\
  stdout (final_state w files) = [].
Proof.
  intros Hs Hf. unfold final_state. rewrite run_flow_succeeds by assumption.
  simpl. split; [|reflexivity]. apply lookup_insert_eq.
Qed.

Lemma C5_screenshot_written_on_success_witness :
  setup_ok all_ok /\ flow_succeeds all_ok /\
  fs (final_state all_ok ∅) !! "jules-scratch/verification/verification.png" =
    Some {| ftype := Png; fdata := png_signature |}.
Proof.
  assert (Hs : setup_ok all_ok) by (repeat constructor).
  assert (Hf : flow_succeeds all_ok) by (repeat constructor).
  split; [exact Hs|]. split; [exact Hf|].
  exact (proj1 (C5_screenshot_written_on_success all_ok ∅ Hs Hf)).
Defined.

(** C6: when login fails, which the script observes as the Dashboard
    assertion raising its timeout error after navigation, both fills and
    the click on SIGN IN have returned, the error's message is printed, the
    screenshot call is never made, the file system is left as it was, and,
    the browser closing normally, the process ends with exit status 0. *)
Theorem C6_failed_login (w : world) (files : gmap string file) (e : exn) :
  setup_ok w ->
  respond w (Goto "http://localhost:1717") = Returns ->
  respond w (Fill "Username" "admin") = Returns ->
  respond w (Fill "Password" "admin") = Returns ->
  respond w (Click "button" "SIGN IN") = Returns ->
  respond w (ExpectText "div.mb-8 > h2.title-flat" "Dashboard") = Raises e ->
  isinstance_Exception e = true ->
  cleanup_ok w ->
  stdout (final_state w files) = ["An error occurred: " +:+ exn_str e] /\
  process_exit w files = 0%Z /\
  (Screenshot screenshot_path ∉ trace (final_state w files)) /\
  fs (final_state w files) = files.
Proof.
  intros Hs H1 H2 H3 H4 H5 He Hc.
  assert (Ht : attempt w flow_actions =
               ([goto_login; fill_username; fill_password; click_sign_in;
                 expect_dashboard], Some e)).
  { apply (attempt_first_raise w
             [goto_login; fill_username; fill_password; click_sign_in]
             [click_user_management; expect_users; take_screenshot]
             expect_dashboard e); [|exact H5].
    repeat constructor; assumption. }
  unfold process_exit, propagated, final_state.
  rewrite (run_entered w files Hs), Ht, He. simpl.
  rewrite after_cleanup_ok by assumption.
  split; [reflexivity|]. split; [reflexivity|]. split; [|reflexivity].
  intros H.
  repeat (apply elem_of_cons in H as [H|H]; [discriminate|]).
  apply elem_of_nil in H. exact H.
Qed.

Lemma C6_failed_login_witness :
  let w := failing_at expect_dashboard dashboard_timeout in
  stdout (final_state w ∅) =
    ["An error occurred: Locator expected to have text 'Dashboard'"] /\
  process_exit w ∅ = 0%Z /\
  (Screenshot screenshot_path ∉ trace (final_state w ∅)) /\
  fs (final_state w ∅) = ∅.
Proof.
  intros w.
  apply (C6_failed_login w ∅ dashboard_timeout);
    first [reflexivity | repeat constructor].
Defined.

Lemma attempt_elem_of (w : world) (l t : list action) (r : option exn) (a : action) :
  attempt w l = (t, r) -> a ∈ t -> a ∈ l.
Proof.
  revert t. induction l as [|b l IH]; simpl; intros t Hl Hin.
  - inversion Hl; subst. exact Hin.
  - destruct (respond w b).
    + destruct (attempt w l) as [t' r'] eqn:Ht'. inversion Hl; subst.
      apply elem_of_cons in Hin as [->|Hin];
        [apply list_elem_of_here | apply list_elem_of_further; eauto].
    + inversion Hl; subst. apply elem_of_cons in Hin as [->|Hin];
        [apply list_elem_of_here | apply elem_of_nil in Hin; contradiction].
Qed.

(** Whatever the world does, the script makes no call that is not one of
    its thirteen statements. *)
Lemma run_trace_elem_of (w : world) (files : gmap string file) (a : action) :
  a ∈ trace (final_state w files) ->
  a ∈ setup_actions ++ flow_actions ++ cleanup_actions.
Proof.
  unfold final_state.
  destruct (respond w SyncPlaywrightEnter) as [|e0] eqn:H1;
    [|rewrite (run_enter_raises w files e0 H1); simpl; intros H;
      apply elem_of_cons in H as [->|H];
      [apply list_elem_of_here | apply elem_of_nil in H; contradiction]].
  destruct (respond w (Launch true)) as [|e1] eqn:H2.
  2:{ rewrite (run_launch_raises w files e1 H1 H2). simpl. intros H.
      rewrite !elem_of_cons, elem_of_nil in H.
      destruct H as [->|[->|[->|[]]]]; unfold setup_actions, flow_actions,
        cleanup_actions; simpl; rewrite !elem_of_cons; tauto. }
  destruct (respond w NewPage) as [|e2] eqn:H3.
  2:{ rewrite (run_new_page_raises w files e2 H1 H2 H3). simpl. intros H.
      rewrite !elem_of_cons, elem_of_nil in H.
      destruct H as [->|[->|[->|[->|[]]]]]; unfold setup_actions, flow_actions,
        cleanup_actions; simpl; rewrite !elem_of_cons; tauto. }
  assert (Hs : setup_ok w) by (repeat constructor; assumption).
  rewrite (run_entered w files Hs).
  destruct (attempt w flow_actions) as [t r] eqn:Ht.
  assert (Hin : a ∈ setup_actions ++ t ++ cleanup_actions ->
                a ∈ setup_actions ++ flow_actions ++ cleanup_actions).
  { rewrite !elem_of_app. intros [H|[H|H]]; auto.
    right; left. eapply attempt_elem_of; eauto. }
  destruct r as [e|]; [destruct (isinstance_Exception e)|]; simpl; exact Hin.
Qed.

(** The only path the script ever hands to [page.screenshot]. *)
Lemma screenshot_only_at_fixed_path
    (w : world) (files : gmap string file) (p : string) :
  Screenshot p ∈ trace (final_state w files) -> p = screenshot_path.
Proof.
  intros H%run_trace_elem_of.
  unfold setup_actions, flow_actions, cleanup_actions in H. simpl in H.
  rewrite !elem_of_cons, elem_of_nil in H.
  repeat (destruct H as [H|H]; [try discriminate|]); [|contradiction].
  inversion H. reflexivity.
Qed.

(** The file system after a run: the run either stored the screenshot or
    touched nothing. *)
Lemma run_fs (w : world) (files : gmap string file) :
  fs (final_state w files) = files \/
  (setup_ok w /\ flow_succeeds w /\
   fs (final_state w files) = <[screenshot_path := screenshot_file w]> files).
Proof.
  unfold final_state.
  destruct (respond w SyncPlaywrightEnter) as [|e0] eqn:H1;
    [|rewrite (run_enter_raises w files e0 H1); left; reflexivity].
  destruct (respond w (Launch true)) as [|e1] eqn:H2;
    [|rewrite (run_launch_raises w files e1 H1 H2); left; reflexivity].
  destruct (respond w NewPage) as [|e2] eqn:H3;
    [|rewrite (run_new_page_raises w files e2 H1 H2 H3); left; reflexivity].
  assert (Hs : setup_ok w) by (repeat constructor; assumption).
  rewrite (run_entered w files Hs).
  destruct (attempt w flow_actions) as [t [e|]] eqn:Ht.
  - destruct (isinstance_Exception e); left; reflexivity.
  - right. apply attempt_none_inv in Ht as [_ Hf]. auto.
Qed.

(** C7: a second run that finds the screenshot of a first run in place
    prints no error, raises nothing of its own (what leaves the script is
    decided by the cleanup alone), and leaves its own image at the same
    path, every other file being as before the first run; whatever the
    world does, the only path the script hands to [page.screenshot] is the
    fixed one. *)
Theorem C7_second_run_overwrites (w1 w2 : world) (files : gmap string file) :
  setup_ok w1 -> flow_succeeds w1 -> setup_ok w2 -> flow_succeeds w2 ->
  let files1 := fs (final_state w1 files) in
  let files2 := fs (final_state w2 files1) in
  files1 !! screenshot_path = Some (screenshot_file w1) /\
  stdout (final_state w2 files1) = [] /\
  propagated w2 files1 = after_cleanup w2 (Normal tt) /\
  files2 !! screenshot_path = Some (screenshot_file w2) /\
  (forall p, p <> screenshot_path -> files2 !! p = files !! p) /\
  (forall w' files' p,
     Screenshot p ∈ trace (final_state w' files') ->
     p = "jules-scratch/verification/verification.png").
Proof.
  intros Hs1 Hf1 Hs2 Hf2 files1 files2. subst files1 files2.
  unfold final_state, propagated.
  rewrite (run_flow_succeeds w1 files Hs1 Hf1). simpl.
  rewrite (run_flow_succeeds w2 _ Hs2 Hf2). simpl.
  split; [apply lookup_insert_eq|]. split; [reflexivity|].
  split; [reflexivity|]. split; [apply lookup_insert_eq|]. split.
  - intros p Hp. rewrite !lookup_insert_ne by congruence. reflexivity.
  - intros w' files' p. apply screenshot_only_at_fixed_path.
Qed.

Lemma C7_second_run_overwrites_witness :
  let w2 := {| respond := fun _ => Returns; capture := png_signature ++ [x00] |} in
  let files1 := fs (final_state all_ok ∅) in
  let files2 := fs (final_state w2 files1) in
  files1 !! screenshot_path = Some {| ftype := Png; fdata := png_signature |} /\
  propagated w2 files1 = Normal tt /\
  files2 !! screenshot_path =
    Some {| ftype := Png; fdata := png_signature ++ [x00] |}.
Proof.
  intros w2 files1 files2.
  assert (Hs1 : setup_ok all_ok) by (repeat constructor).
  assert (Hf1 : flow_succeeds all_ok) by (repeat constructor).
  assert (Hs2 : setup_ok w2) by (repeat constructor).
  assert (Hf2 : flow_succeeds w2) by (repeat constructor).
  destruct (C7_second_run_overwrites all_ok w2 ∅ Hs1 Hf1 Hs2 Hf2)
    as (H1 & _ & H3 & H4 & _).
  split; [exact H1|]. split; [exact H3 | exact H4].
Defined.

(** C8: the handler and the [finally] suite cover only what follows the
    creation of the page.  When [p.chromium.launch] or [browser.new_page]
    raises, be it an [Exception] or not, that same exception leaves
    [run_verification] (the exit of the context raising nothing), no line
    is printed, and [browser.close()] is not called. *)
Theorem C8_setup_failure_propagates
    (w : world) (files : gmap string file) (e : exn) :
  respond w SyncPlaywrightEnter = Returns ->
  respond w (Launch true) = Raises e \/
    (respond w (Launch true) = Returns /\ respond w NewPage = Raises e) ->
  respond w SyncPlaywrightExit = Returns ->
  propagated w files = Raise e /\
  stdout (final_state w files) = [] /\
  Close ∉ trace (final_state w files).
Proof.
  intros H1 [H2|[H2 H3]] H4; unfold propagated, final_state.
  - rewrite (run_launch_raises w files e H1 H2). unfold after_exit.
    rewrite H4. simpl. split; [reflexivity|]. split; [reflexivity|].
    intros H. repeat (apply elem_of_cons in H as [H|H]; [discriminate|]).
    apply elem_of_nil in H. exact H.
  - rewrite (run_new_page_raises w files e H1 H2 H3). unfold after_exit.
    rewrite H4. simpl. split; [reflexivity|]. split; [reflexivity|].
    intros H. repeat (apply elem_of_cons in H as [H|H]; [discriminate|]).
    apply elem_of_nil in H. exact H.
Qed.

Lemma C8_setup_failure_propagates_witness :
  let w := failing_at NewPage page_crashed in
  respond w NewPage = Raises page_crashed /\
  propagated w ∅ = Raise page_crashed /\
  stdout (final_state w ∅) = [] /\
  Close ∉ trace (final_state w ∅).
Proof.
  intros w. split; [reflexivity|].
  apply (C8_setup_failure_propagates w ∅ page_crashed);
    [reflexivity | right; split; reflexivity | reflexivity].
Defined.

(** The screenshot statement is reached only after the seven statements
    before it in the [try] body have returned. *)
Lemma screenshot_reached_only_after_success
    (w : world) (files : gmap string file) :
  take_screenshot ∈ trace (final_state w files) ->
  setup_ok w /\
  Forall (returns w)
    [goto_login; fill_username; fill_password; click_sign_in;
     expect_dashboard; click_user_management; expect_users].
Proof.
  unfold final_state.
  destruct (respond w SyncPlaywrightEnter) as [|e0] eqn:H1.
  2:{ rewrite (run_enter_raises w files e0 H1). simpl. intros H.
      repeat (apply elem_of_cons in H as [H|H]; [discriminate|]).
      apply elem_of_nil in H. contradiction. }
  destruct (respond w (Launch true)) as [|e1] eqn:H2.
  2:{ rewrite (run_launch_raises w files e1 H1 H2). simpl. intros H.
      repeat (apply elem_of_cons in H as [H|H]; [discriminate|]).
      apply elem_of_nil in H. contradiction. }
  destruct (respond w NewPage) as [|e2] eqn:H3.
  2:{ rewrite (run_new_page_raises w files e2 H1 H2 H3). simpl. intros H.
      repeat (apply elem_of_cons in H as [H|H]; [discriminate|]).
      apply elem_of_nil in H. contradiction. }
  assert (Hs : setup_ok w) by (repeat constructor; assumption).
  rewrite (run_entered w files Hs).
  destruct (attempt w flow_actions) as [t r] eqn:Ht.
  intros Hin. split; [exact Hs|].
  assert (Hin' : take_screenshot ∈ t).
  { assert (H : take_screenshot ∈ setup_actions ++ t ++ cleanup_actions)
      by (destruct r as [e|]; [destruct (isinstance_Exception e)|]; exact Hin).
    rewrite !elem_of_app in H. destruct H as [H|[H|H]]; [|exact H|];
      exfalso; unfold setup_actions, cleanup_actions in H;
      repeat (apply elem_of_cons in H as [H|H]; [discriminate|]);
      apply elem_of_nil in H; exact H. }
  eapply (attempt_reached w flow_actions t r _ [] take_screenshot Ht);
    [reflexivity| |exact Hin'].
  intros H. repeat (apply elem_of_cons in H as [H|H]; [discriminate|]).
  apply elem_of_nil in H. exact H.
Qed.

(** A run leaves a changed file at the screenshot path only if the set-up
    and every statement of the [try] body returned. *)
Lemma changed_file_implies_flow_succeeded
    (w : world) (files : gmap string file) :
  fs (final_state w files) !! screenshot_path <> files !! screenshot_path ->
  setup_ok w /\ flow_succeeds w.
Proof.
  intros Hnew. destruct (run_fs w files) as [Hsame|(Hs & Hf & _)].
  - rewrite Hsame in Hnew. contradiction.
  - split; assumption.
Qed.

(** C9, as stated: the existence of the screenshot would imply that the
    whole flow succeeded.  With the screenshot of an earlier run in place, a
    run whose navigation fails prints its error and leaves that file where
    it was: afterwards the screenshot exists and the flow has failed. *)
Lemma C9_stale_screenshot_refuted :
  let old := {| ftype := Png; fdata := [x89; x50] |} in
  let files : gmap string file := {[ screenshot_path := old ]} in
  let w := failing_at goto_login page_crashed in
  fs (final_state w files) !! screenshot_path = Some old /\
  respond w goto_login = Raises page_crashed /\
  ~ flow_succeeds w.
Proof.
  intros old files w. split; [reflexivity|]. split; [reflexivity|].
  intros Hf. unfold flow_succeeds, flow_actions in Hf.
  apply Forall_cons in Hf as [Hg _]. unfold returns in Hg. discriminate.
Qed.

(** C9, amended: the screenshot is the last statement of the [try] body.
    A run stores a screenshot, that is, it makes the call [page.screenshot]
    and the call returns, only if the context was entered, the browser
    launched, the page opened and every statement before it returned:
    navigation, both fills, the click on SIGN IN, the Dashboard assertion,
    the click on User Management and the Users assertion.  In such a run
    the whole flow has succeeded, the file at the screenshot path is the
    image of this run, and the calls end with the screenshot,
    [browser.close()] and the exit of the context. *)
Theorem C9_screenshot_stored_implies_flow_succeeded
    (w : world) (files : gmap string file) :
  Screenshot screenshot_path ∈ trace (final_state w files) ->
  respond w (Screenshot screenshot_path) = Returns ->
  setup_ok w /\
  Forall (returns w)
    [Goto "http://localhost:1717"; Fill "Username" "admin";
     Fill "Password" "admin"; Click "button" "SIGN IN";
     ExpectText "div.mb-8 > h2.title-flat" "Dashboard";
     Click "link" "User Management";
     ExpectText "div.mb-8 > h2.title-flat" "Users"] /\
  flow_succeeds w /\
  fs (final_state w files) !! screenshot_path =
    Some {| ftype := Png; fdata := capture w |} /\
  exists t, trace (final_state w files) =
            t ++ [Screenshot screenshot_path; Close; SyncPlaywrightExit].
Proof.
  intros Hin Hret.
  destruct (screenshot_reached_only_after_success w files Hin) as [Hs Hpre].
  assert (Hf : flow_succeeds w).
  { unfold flow_succeeds, flow_actions.
    change [goto_login; fill_username; fill_password; click_sign_in;
            expect_dashboard; click_user_management; expect_users;
            take_screenshot]
      with ([goto_login; fill_username; fill_password; click_sign_in;
             expect_dashboard; click_user_management; expect_users] ++
            [take_screenshot]).
    apply Forall_app. split; [exact Hpre|]. repeat constructor. exact Hret. }
  split; [exact Hs|]. split; [exact Hpre|]. split; [exact Hf|].
  unfold final_state. rewrite (run_flow_succeeds w files Hs Hf). simpl.
  split; [apply lookup_insert_eq|].
  exists [SyncPlaywrightEnter; Launch true; NewPage; goto_login;
          fill_username; fill_password; click_sign_in; expect_dashboard;
          click_user_management; expect_users].
  reflexivity.
Qed.

Lemma C9_screenshot_stored_implies_flow_succeeded_witness :
  Screenshot screenshot_path ∈ trace (final_state all_ok ∅) /\
  respond all_ok (Screenshot screenshot_path) = Returns /\
  setup_ok all_ok /\ flow_succeeds all_ok.
Proof.
  assert (Hin : Screenshot screenshot_path ∈ trace (final_state all_ok ∅)).
  { vm_compute. do 10 apply list_elem_of_further. apply list_elem_of_here. }
  split; [exact Hin|]. split; [reflexivity|].
  destruct (C9_screenshot_stored_implies_flow_succeeded all_ok ∅ Hin eq_refl)
    as (Hs & _ & Hf & _).
  split; [exact Hs | exact Hf].
Defined.

(** C10, as stated: an exception that is not an [Exception], raised during
    the flow, would keep the process from exiting 0.  [sys.exit()] raises
    [SystemExit] without a code; raised during navigation it is not caught,
    leaves the script, and the interpreter exits with status 0. *)
Lemma C10_exit_nonzero_refuted :
  let w := failing_at goto_login sys_exit in
  respond w goto_login = Raises sys_exit /\
  isinstance_Exception sys_exit = false /\
  propagated w ∅ = Raise sys_exit /\
  process_exit w ∅ = 0%Z.
Proof. intros w. repeat split. Qed.

(** C10, amended: the handler catches [Exception] only.  For an exception
    of another class ([KeyboardInterrupt], [SystemExit], ...) raised by a
    statement of the [try] body no line is printed, [browser.close()] is
    still called, and (the cleanup returning) that exception leaves the
    script; the exit status is then the one the interpreter derives from the
    exception, which is not 0 unless the exception is a [SystemExit]. *)
Theorem C10_base_exception_propagates
    (w : world) (files : gmap string file) (e : exn) :
  setup_ok w -> flow_raises w e -> isinstance_Exception e = false ->
  cleanup_ok w ->
  stdout (final_state w files) = [] /\
  propagated w files = Raise e /\
  (exists t, trace (final_state w files) =
             setup_actions ++ t ++ [Close; SyncPlaywrightExit]) /\
  process_exit w files = status_of_exn e /\
  ((forall c, exn_class e <> SystemExit c) -> process_exit w files <> 0%Z).
Proof.
  intros Hs Hf He Hc.
  destruct (run_flow_uncaught w files e Hs Hf He) as (t & _ & Hrun).
  unfold process_exit, propagated, final_state. rewrite Hrun. simpl.
  rewrite (after_cleanup_ok w _ Hc). simpl.
  split; [reflexivity|]. split; [reflexivity|].
  split; [exists t; reflexivity|]. split; [reflexivity|].
  intros Hnot. unfold status_of_exn. unfold isinstance_Exception in He.
  destruct (exn_class e) as [n| |c| |n]; try discriminate.
  exfalso. apply (Hnot c). reflexivity.
Qed.

Lemma C10_base_exception_propagates_witness :
  let w := failing_at expect_users ctrl_c in
  setup_ok w /\ flow_raises w ctrl_c /\ cleanup_ok w /\
  stdout (final_state w ∅) = [] /\
  propagated w ∅ = Raise ctrl_c /\
  process_exit w ∅ <> 0%Z.
Proof.
  intros w.
  assert (Hs : setup_ok w) by (repeat constructor).
  assert (Hf : flow_raises w ctrl_c).
  { exists [goto_login; fill_username; fill_password; click_sign_in;
            expect_dashboard; click_user_management], expect_users,
           [take_screenshot].
    split; [reflexivity|]. split; [repeat constructor | reflexivity]. }
  assert (Hc : cleanup_ok w) by (repeat constructor).
  destruct (C10_base_exception_propagates w ∅ ctrl_c Hs Hf eq_refl Hc)
    as (Hout & Hprop & _ & _ & Hexit).
  split; [exact Hs|]. split; [exact Hf|]. split; [exact Hc|].
  split; [exact Hout|]. split; [exact Hprop|].
  apply Hexit. intros c. discriminate.
Defined.


(** ** Further properties of the script *)

(** Every run falls under one of four cases, by the first of the three
    set-up calls that raises, if any. *)
Lemma run_cases (w : world) (files : gmap string file) :
  (exists e, respond w SyncPlaywrightEnter = Raises e /\
     run w files =
     ({| trace := [SyncPlaywrightEnter]; stdout := []; fs := files |}, Raise e)) \/
  (exists e, respond w SyncPlaywrightEnter = Returns /\
     respond w (Launch true) = Raises e /\
     run w files =
     ({| trace := [SyncPlaywrightEnter; Launch true; SyncPlaywrightExit];
         stdout := []; fs := files |}, after_exit w e)) \/
  (exists e, respond w SyncPlaywrightEnter = Returns /\
     respond w (Launch true) = Returns /\
     respond w NewPage = Raises e /\
     run w files =
     ({| trace := [SyncPlaywrightEnter; Launch true; NewPage; SyncPlaywrightExit];
         stdout := []; fs := files |}, after_exit w e)) \/
  (setup_ok w /\
   exists t r, attempt w flow_actions = (t, r) /\
     run w files =
     match r with
     | None =>
         ({| trace := setup_actions ++ t ++ cleanup_actions; stdout := [];
             fs := <[screenshot_path := screenshot_file w]> files |},
          after_cleanup w (Normal tt))
     | Some e =>
         if isinstance_Exception e then
           ({| trace := setup_actions ++ t ++ cleanup_actions;
               stdout := [error_line e]; fs := files |},
            after_cleanup w (Normal tt))
         else
           ({| trace := setup_actions ++ t ++ cleanup_actions;
               stdout := []; fs := files |},
            after_cleanup w (Raise e))
     end).
Proof.
  destruct (respond w SyncPlaywrightEnter) as [|e0] eqn:H1.
  2:{ left. exists e0. split; [reflexivity|]. apply run_enter_raises, H1. }
  destruct (respond w (Launch true)) as [|e1] eqn:H2.
  2:{ right; left. exists e1. split; [reflexivity|]. split; [reflexivity|].
      apply run_launch_raises; assumption. }
  destruct (respond w NewPage) as [|e2] eqn:H3.
  2:{ right; right; left. exists e2. repeat (split; [reflexivity|]).
      apply run_new_page_raises; assumption. }
  right; right; right.
  assert (Hs : setup_ok w) by (repeat constructor; assumption).
  split; [exact Hs|].
  destruct (attempt w flow_actions) as [t r] eqn:Ht. exists t, r.
  split; [reflexivity|]. rewrite (run_entered w files Hs), Ht.
  destruct r; reflexivity.
Qed.

Lemma attempt_sublist (w : world) (l t : list action) (r : option exn) :
  attempt w l = (t, r) -> t `sublist_of` l.
Proof.
  revert t. induction l as [|a l IH]; simpl; intros t H.
  - inversion H. constructor.
  - destruct (respond w a).
    + destruct (attempt w l) as [t' r'] eqn:Ht'. inversion H; subst.
      apply sublist_skip. apply (IH t' eq_refl).
    + inversion H; subst. apply sublist_skip, sublist_nil_l.
Qed.

Lemma setup_not_ok (w : world) (a : action) (e : exn) :
  a ∈ setup_actions -> respond w a = Raises e -> setup_ok w -> False.
Proof.
  intros Hin Ha Hs. unfold setup_ok in Hs. rewrite Forall_forall in Hs.
  specialize (Hs a Hin). unfold returns in Hs. congruence.
Qed.

Lemma script_statements_distinct :
  NoDup (setup_actions ++ flow_actions ++ cleanup_actions).
Proof.
  apply (bool_decide_unpack
           (NoDup (setup_actions ++ flow_actions ++ cleanup_actions))).
  vm_compute. exact I.
Qed.

(** X1: when the Playwright context cannot be entered, the script stops
    there: the only call made is the entering itself (nothing is launched,
    [__exit__] is not called), nothing is printed, no file is touched, and
    the exception leaves the script. *)
Theorem X1_context_not_entered
    (w : world) (files : gmap string file) (e : exn) :
  respond w SyncPlaywrightEnter = Raises e ->
  trace (final_state w files) = [SyncPlaywrightEnter] /\
  stdout (final_state w files) = [] /\
  fs (final_state w files) = files /\
  propagated w files = Raise e.
Proof.
  intros H. unfold final_state, propagated.
  rewrite (run_enter_raises w files e H). simpl. auto.
Qed.

Lemma X1_context_not_entered_witness :
  let w := failing_at SyncPlaywrightEnter browser_not_installed in
  respond w SyncPlaywrightEnter = Raises browser_not_installed /\
  trace (final_state w ∅) = [SyncPlaywrightEnter] /\
  propagated w ∅ = Raise browser_not_installed.
Proof.
  intros w. split; [reflexivity|].
  destruct (X1_context_not_entered w ∅ browser_not_installed eq_refl)
    as (Ht & _ & _ & Hp).
  split; [exact Ht | exact Hp].
Defined.

(** X2: what a run prints is decided by the [try] body alone.  Either the
    page was opened and the body raised an [Exception] [e], and then exactly
    one line is printed, "An error occurred: " followed by [str(e)]; or
    nothing is printed at all.  A failure of the set-up, a success, and an
    exception outside [Exception] print nothing. *)
Theorem X2_stdout_characterised (w : world) (files : gmap string file) :
  (exists e, setup_ok w /\ flow_raises w e /\ isinstance_Exception e = true /\
     stdout (final_state w files) = ["An error occurred: " +:+ exn_str e]) \/
  (stdout (final_state w files) = [] /\
   ~ (setup_ok w /\
      exists e, flow_raises w e /\ isinstance_Exception e = true)).
Proof.
  unfold final_state.
  destruct (run_cases w files)
    as [(e & H1 & ->)|[(e & H1 & H2 & ->)|[(e & H1 & H2 & H3 & ->)|
        (Hs & t & r & Ht & ->)]]].
  - right. split; [reflexivity|]. intros [Hs _].
    eapply (setup_not_ok w SyncPlaywrightEnter); eauto.
    apply list_elem_of_here.
  - right. split; [reflexivity|]. intros [Hs _].
    eapply (setup_not_ok w (Launch true)); eauto.
    apply list_elem_of_further, list_elem_of_here.
  - right. split; [reflexivity|]. intros [Hs _].
    eapply (setup_not_ok w NewPage); eauto.
    do 2 apply list_elem_of_further. apply list_elem_of_here.
  - destruct r as [e|].
    + destruct (isinstance_Exception e) eqn:He.
      * left. exists e. split; [exact Hs|].
        split; [exact (attempt_flow_raises w t e Ht)|]. split; [exact He|].
        reflexivity.
      * right. split; [reflexivity|]. intros (_ & e' & Hf & He').
        destruct (flow_raises_attempt w e' Hf) as [t' Ht']. congruence.
    + right. split; [reflexivity|]. intros (_ & e' & Hf & _).
      destruct (flow_raises_attempt w e' Hf) as [t' Ht']. congruence.
Qed.

(** X3: a run never touches a file other than the screenshot: whatever the
    world does, every other path holds after the run what it held before. *)
Theorem X3_other_files_untouched
    (w : world) (files : gmap string file) (p : string) :
  p <> "jules-scratch/verification/verification.png" ->
  fs (final_state w files) !! p = files !! p.
Proof.
  intros Hp. destruct (run_fs w files) as [->|(_ & _ & ->)]; [reflexivity|].
  apply lookup_insert_ne. unfold screenshot_path. congruence.
Qed.

Lemma X3_other_files_untouched_witness :
  let files : gmap string file :=
    {[ "README.md" := {| ftype := Jpeg; fdata := [x2a] |} ]} in
  "README.md" <> "jules-scratch/verification/verification.png" /\
  fs (final_state all_ok files) !! "README.md" =
    Some {| ftype := Jpeg; fdata := [x2a] |}.
Proof.
  intros files.
  assert (Hp : "README.md" <> "jules-scratch/verification/verification.png")
    by discriminate.
  split; [exact Hp|].
  rewrite (X3_other_files_untouched all_ok files "README.md" Hp).
  reflexivity.
Defined.

(** X4: the [try] body stops at the first statement that raises: the calls
    of such a run are the set-up, the statements before the failing one, the
    failing one, and then only [browser.close()] and the exit of the
    context; no statement after the failing one is executed. *)
Theorem X4_flow_stops_at_first_failure
    (w : world) (files : gmap string file)
    (pre post : list action) (a : action) (e : exn) :
  setup_ok w ->
  flow_actions = pre ++ a :: post ->
  Forall (returns w) pre ->
  respond w a = Raises e ->
  trace (final_state w files) =
    [SyncPlaywrightEnter; Launch true; NewPage] ++ pre ++
    [a; Close; SyncPlaywrightExit] /\
  forall b, b ∈ post -> b ∉ trace (final_state w files).
Proof.
  intros Hs Hdec Hpre Ha.
  assert (Ht : attempt w flow_actions = (pre ++ [a], Some e))
    by (rewrite Hdec; apply attempt_first_raise; assumption).
  assert (Htr : trace (final_state w files) =
                setup_actions ++ pre ++ [a; Close; SyncPlaywrightExit]).
  { unfold final_state. rewrite (run_entered w files Hs), Ht.
    destruct (isinstance_Exception e); simpl; rewrite <- app_assoc;
      reflexivity. }
  split; [exact Htr|]. intros b Hb. rewrite Htr.
  pose proof script_statements_distinct as Hnd. rewrite Hdec in Hnd.
  unfold setup_actions, cleanup_actions in *.
  rewrite !NoDup_app, !NoDup_cons in Hnd.
  destruct Hnd as (_ & Hsetup & (_ & Hpre_post & Hanot & _) & Hflow & _).
  intros Hin. apply elem_of_app in Hin as [Hin|Hin];
    [|apply elem_of_app in Hin as [Hin|Hin];
      [|rewrite !elem_of_cons, elem_of_nil in Hin;
        destruct Hin as [->|[->|[->|[]]]]]].
  - apply (Hsetup b Hin). rewrite !elem_of_app, elem_of_cons. auto.
  - apply (Hpre_post b Hin). rewrite elem_of_cons. auto.
  - exact (Hanot Hb).
  - apply (Hflow Close); [|apply list_elem_of_here].
    rewrite elem_of_app, elem_of_cons. auto.
  - apply (Hflow SyncPlaywrightExit);
      [|apply list_elem_of_further, list_elem_of_here].
    rewrite elem_of_app, elem_of_cons. auto.
Qed.

Lemma X4_flow_stops_at_first_failure_witness :
  let w := failing_at click_sign_in page_crashed in
  setup_ok w /\ respond w click_sign_in = Raises page_crashed /\
  trace (final_state w ∅) =
    [SyncPlaywrightEnter; Launch true; NewPage; goto_login; fill_username;
     fill_password; click_sign_in; Close; SyncPlaywrightExit] /\
  take_screenshot ∉ trace (final_state w ∅).
Proof.
  intros w.
  assert (Hs : setup_ok w) by (repeat constructor).
  destruct (X4_flow_stops_at_first_failure w ∅
              [goto_login; fill_username; fill_password]
              [expect_dashboard; click_user_management; expect_users;
               take_screenshot]
              click_sign_in page_crashed Hs eq_refl)
    as [Htr Hpost]; [repeat constructor | reflexivity |].
  split; [exact Hs|]. split; [reflexivity|]. split; [exact Htr|].
  apply Hpost. do 3 apply list_elem_of_further. apply list_elem_of_here.
Defined.

(** X5: whatever the world does, the calls of a run are a subsequence of
    the thirteen statements of the source, in source order: nothing else is
    ever called, nothing is called out of order, and nothing is called twice
    (no retry). *)
Theorem X5_calls_follow_source_order (w : world) (files : gmap string file) :
  trace (final_state w files) `sublist_of`
    [SyncPlaywrightEnter; Launch true; NewPage;
     Goto "http://localhost:1717";
     Fill "Username" "admin"; Fill "Password" "admin";
     Click "button" "SIGN IN";
     ExpectText "div.mb-8 > h2.title-flat" "Dashboard";
     Click "link" "User Management";
     ExpectText "div.mb-8 > h2.title-flat" "Users";
     Screenshot "jules-scratch/verification/verification.png";
     Close; SyncPlaywrightExit] /\
  NoDup (trace (final_state w files)).
Proof.
  assert (Hsub : trace (final_state w files) `sublist_of`
                 setup_actions ++ flow_actions ++ cleanup_actions).
  { unfold final_state.
    destruct (run_cases w files)
      as [(e & H1 & ->)|[(e & H1 & H2 & ->)|[(e & H1 & H2 & H3 & ->)|
          (Hs & t & r & Ht & ->)]]]; simpl.
    - sublist_by_skipping.
    - sublist_by_skipping.
    - sublist_by_skipping.
    - assert (H : setup_actions ++ t ++ cleanup_actions `sublist_of`
                  setup_actions ++ flow_actions ++ cleanup_actions).
      { apply sublist_app; [reflexivity|].
        apply sublist_app; [|reflexivity].
        eapply attempt_sublist; eauto. }
      destruct r as [e|]; [destruct (isinstance_Exception e)|]; exact H. }
  split; [exact Hsub|].
  exact (sublist_NoDup _ _ script_statements_distinct Hsub).
Qed.

(** X6: the handler does not cover the [finally] suite.  When
    [browser.close()] raises, that exception leaves the script (the exit of
    the context raising nothing) whatever the [try] body did before, also
    when the body's own exception had been caught and printed; the exit
    status is the one of the exception of [browser.close()]. *)
Theorem X6_close_failure_propagates
    (w : world) (files : gmap string file) (e' : exn) :
  setup_ok w ->
  respond w Close = Raises e' ->
  respond w SyncPlaywrightExit = Returns ->
  propagated w files = Raise e' /\
  process_exit w files = status_of_exn e'.
Proof.
  intros Hs Hc Hx.
  assert (Hp : propagated w files = Raise e').
  { unfold propagated. rewrite (run_entered w files Hs).
    destruct (attempt w flow_actions) as [t [e|]];
      [destruct (isinstance_Exception e)|]; simpl; unfold after_cleanup;
      rewrite Hc, Hx; reflexivity. }
  split; [exact Hp|]. unfold process_exit. rewrite Hp. reflexivity.
Qed.

Lemma X6_close_failure_propagates_witness :
  let w := {| respond := fun a =>
                if decide (a = expect_users) then Raises dashboard_timeout
                else if decide (a = Close) then Raises page_crashed
                else Returns;
              capture := png_signature |} in
  setup_ok w /\ respond w Close = Raises page_crashed /\
  stdout (final_state w ∅) <> [] /\
  propagated w ∅ = Raise page_crashed /\
  process_exit w ∅ = 1%Z.
Proof.
  intros w.
  assert (Hs : setup_ok w) by (repeat constructor).
  destruct (X6_close_failure_propagates w ∅ page_crashed Hs eq_refl eq_refl)
    as [Hp Hx].
  split; [exact Hs|]. split; [reflexivity|]. split; [discriminate|].
  split; [exact Hp | exact Hx].
Defined.

(** X7: once the context is entered, an exception raised by its
    [__exit__] is what leaves the script, replacing any exception that was
    on its way out, on every path. *)
Theorem X7_context_exit_failure_replaces
    (w : world) (files : gmap string file) (e' : exn) :
  respond w SyncPlaywrightEnter = Returns ->
  respond w SyncPlaywrightExit = Raises e' ->
  propagated w files = Raise e'.
Proof.
  intros H0 Hx. unfold propagated.
  destruct (run_cases w files)
    as [(e & H1 & ->)|[(e & H1 & H2 & ->)|[(e & H1 & H2 & H3 & ->)|
        (Hs & t & r & Ht & ->)]]].
  - congruence.
  - simpl. unfold after_exit. rewrite Hx. reflexivity.
  - simpl. unfold after_exit. rewrite Hx. reflexivity.
  - destruct r as [e|]; [destruct (isinstance_Exception e)|]; simpl;
      unfold after_cleanup; rewrite Hx; reflexivity.
Qed.

Lemma X7_context_exit_failure_replaces_witness :
  let w := {| respond := fun a =>
                if decide (a = Launch true) then Raises browser_not_installed
                else if decide (a = SyncPlaywrightExit) then Raises ctrl_c
                else Returns;
              capture := png_signature |} in
  respond w (Launch true) = Raises browser_not_installed /\
  respond w SyncPlaywrightExit = Raises ctrl_c /\
  propagated w ∅ = Raise ctrl_c.
Proof.
  intros w. split; [reflexivity|]. split; [reflexivity|].
  exact (X7_context_exit_failure_replaces w ∅ ctrl_c eq_refl eq_refl).
Defined.



Lemma status_of_Exception (e : exn) :
  isinstance_Exception e = true -> status_of_exn e = 1%Z.
Proof.
  unfold isinstance_Exception, status_of_exn.
  destruct (exn_class e); intros H; try discriminate. reflexivity.
Qed.

(** X10: the exit status says nothing about the flow.  When whatever is
    raised is an [Exception] (no interrupt, no [SystemExit]), the process
    exits with 0 or 1, and with 0 exactly when the context was entered, the
    browser launched, the page opened, and [browser.close()] and the exit of
    the context returned; whether the statements of the [try] body
    succeeded plays no part. *)
Theorem X10_exit_status_ignores_flow (w : world) (files : gmap string file) :
  (forall a e, respond w a = Raises e -> isinstance_Exception e = true) ->
  (process_exit w files = 0%Z <-> setup_ok w /\ cleanup_ok w) /\
  (process_exit w files = 0%Z \/ process_exit w files = 1%Z).
Proof.
  intros Hord. unfold process_exit, propagated.
  assert (Hexit : forall e, (exists a, respond w a = Raises e) ->
            exit_status (after_exit w e) = 1%Z).
  { intros e [a Ha]. unfold after_exit.
    destruct (respond w SyncPlaywrightExit) as [|e'] eqn:Hx; simpl;
      apply status_of_Exception; eauto. }
  assert (Hclean : (cleanup_ok w /\
                    exit_status (after_cleanup w (Normal tt)) = 0%Z) \/
                   (~ cleanup_ok w /\
                    exit_status (after_cleanup w (Normal tt)) = 1%Z)).
  { unfold after_cleanup.
    destruct (respond w Close) as [|e1] eqn:Hc;
      destruct (respond w SyncPlaywrightExit) as [|e2] eqn:Hx; simpl.
    - left. split; [repeat constructor; assumption | reflexivity].
    - right. split; [intros [_ H]%cleanup_ok_inv; congruence|].
      apply status_of_Exception; eauto.
    - right. split; [intros [H _]%cleanup_ok_inv; congruence|].
      apply status_of_Exception; eauto.
    - right. split; [intros [H _]%cleanup_ok_inv; congruence|].
      apply status_of_Exception; eauto. }
  destruct (run_cases w files)
    as [(e & H1 & ->)|[(e & H1 & H2 & ->)|[(e & H1 & H2 & H3 & ->)|
        (Hs & t & r & Ht & ->)]]].
  - simpl. rewrite (status_of_Exception e (Hord _ _ H1)).
    split; [|auto]. split; [discriminate|]. intros [Hs _]. exfalso.
    eapply (setup_not_ok w SyncPlaywrightEnter); eauto.
    apply list_elem_of_here.
  - simpl. rewrite (Hexit e (ex_intro _ _ H2)).
    split; [|auto]. split; [discriminate|]. intros [Hs _]. exfalso.
    eapply (setup_not_ok w (Launch true)); eauto.
    apply list_elem_of_further, list_elem_of_here.
  - simpl. rewrite (Hexit e (ex_intro _ _ H3)).
    split; [|auto]. split; [discriminate|]. intros [Hs _]. exfalso.
    eapply (setup_not_ok w NewPage); eauto.
    do 2 apply list_elem_of_further. apply list_elem_of_here.
  - assert (Hflow : forall e, r = Some e -> isinstance_Exception e = true).
    { intros e ->.
      apply attempt_some_inv in Ht as (pre & a & post & _ & _ & Ha & _).
      exact (Hord a e Ha). }
    destruct r as [e|]; [rewrite (Hflow e eq_refl)|]; simpl;
      destruct Hclean as [[Hc ->]|[Hc ->]];
      (split; [|auto]);
      first [ split; [discriminate | intros [_ Hc']; contradiction]
            | split; auto ].
Qed.

Lemma X10_exit_status_ignores_flow_witness :
  let w := failing_at goto_login page_crashed in
  (forall a e, respond w a = Raises e -> isinstance_Exception e = true) /\
  process_exit w ∅ = 0%Z /\ stdout (final_state w ∅) <> [].
Proof.
  intros w.
  assert (Hord : forall a e, respond w a = Raises e ->
                             isinstance_Exception e = true).
  { intros a e. simpl. destruct (decide (a = goto_login)); intros H;
      inversion H. reflexivity. }
  split; [exact Hord|]. split; [|discriminate].
  apply (proj1 (X10_exit_status_ignores_flow w ∅ Hord)).
  split; repeat constructor.
Defined.

(** X11: [browser.close()] is called exactly on the runs in which the
    context was entered, the browser launched and the page opened. *)
Theorem X11_close_called_iff_page_opened
    (w : world) (files : gmap string file) :
  Close ∈ trace (final_state w files) <-> setup_ok w.
Proof.
  unfold final_state.
  destruct (run_cases w files)
    as [(e & H1 & ->)|[(e & H1 & H2 & ->)|[(e & H1 & H2 & H3 & ->)|
        (Hs & t & r & Ht & ->)]]]; simpl.
  - split.
    + intros H. repeat (apply elem_of_cons in H as [H|H]; [discriminate|]).
      apply elem_of_nil in H. contradiction.
    + intros Hs. exfalso. eapply (setup_not_ok w SyncPlaywrightEnter); eauto.
      apply list_elem_of_here.
  - split.
    + intros H. repeat (apply elem_of_cons in H as [H|H]; [discriminate|]).
      apply elem_of_nil in H. contradiction.
    + intros Hs. exfalso. eapply (setup_not_ok w (Launch true)); eauto.
      apply list_elem_of_further, list_elem_of_here.
  - split.
    + intros H. repeat (apply elem_of_cons in H as [H|H]; [discriminate|]).
      apply elem_of_nil in H. contradiction.
    + intros Hs. exfalso. eapply (setup_not_ok w NewPage); eauto.
      do 2 apply list_elem_of_further. apply list_elem_of_here.
  - split; [intros _; exact Hs|]. intros _.
    assert (H : Close ∈ setup_actions ++ t ++ cleanup_actions).
    { rewrite !elem_of_app. right; right. apply list_elem_of_here. }
    destruct r as [e|]; [destruct (isinstance_Exception e)|]; exact H.
Qed.

(** X12: running the script again in the same world changes nothing more
    on disk: the file system after two runs is the file system after one. *)
Theorem X12_second_run_same_files (w : world) (files : gmap string file) :
  fs (final_state w (fs (final_state w files))) = fs (final_state w files).
Proof.
  destruct (run_fs w files) as [H1|(_ & _ & H1)]; rewrite H1.
  - exact H1.
  - destruct (run_fs w (<[screenshot_path := screenshot_file w]> files))
      as [H2|(_ & _ & H2)]; rewrite H2; [reflexivity|].
    apply insert_insert_eq.
Qed.
